(** * Starred restaurants: the router of [backend/routes/starredRestaurants.js]

    A shallow embedding of the Express router that serves the list of
    starred restaurants, and the properties of its handlers.

    The module-level array [STARRED_RESTAURANTS] is the only state; every
    handler is a function from the current array to the next array and the
    response it sends.  The catalogue [ALL_RESTAURANTS] is imported from
    [./restaurants], which is another module: it is a section variable here.
    [uuidv4()] is the only source of non-determinism; the value it returns is
    an argument of the handler that calls it. *)

From Stdlib Require Import String List Bool Arith Lia.
Import ListNotations.
Open Scope string_scope.
Open Scope list_scope.

(** ** Data *)

(** An element of [STARRED_RESTAURANTS]. *)
Module Starred.
Record t : Type := mk { id : string; restaurantId : string; comment : string }.
End Starred.

(** An element of [ALL_RESTAURANTS]; the handlers read [id] and [name] only. *)
Module Restaurant.
Record t : Type := mk { id : string; name : string }.
End Restaurant.

(** The object literal [{ id, comment, name }] sent by the two GET handlers. *)
Module View.
Record t : Type := mk { id : string; comment : string; name : string }.
End View.

Definition state : Type := list Starred.t.

(** The initial value of [STARRED_RESTAURANTS] (lines 10-21). *)
Definition STARRED_RESTAURANTS : state :=
  [ Starred.mk "a7272cd9-26fb-44b5-8d53-9781f55175a1"
               "869c848c-7a58-4ed6-ab88-72ee2e8e677c"
               "Best pho in NYC";
    Starred.mk "8df59b21-2152-4f9b-9200-95c19aa88226"
               "e8036613-4b72-46f6-ab5e-edd2fc7c4fe4"
               "Their lunch special is the best!" ].

(** ** Exceptions

    Reading a property of [undefined] throws a [TypeError]; an exception
    thrown by the callback of [Array.prototype.map] aborts the whole map. *)

Inductive js_error : Type :=
| TypeError (msg : string).

Inductive completion (A : Type) : Type :=
| Normal (a : A)
| Throw (e : js_error).
Arguments Normal {A} a.
Arguments Throw {A} e.

Definition bind {A B : Type} (c : completion A) (k : A -> completion B)
  : completion B :=
  match c with
  | Normal a => k a
  | Throw e => Throw e
  end.

Notation "x <- c ;; k" := (bind c (fun x => k))
  (at level 61, c at next level, right associativity).

(** [l.map(f)] for a callback that may throw: elements are visited from index
    0 upwards and the first exception escapes. *)
Fixpoint array_map {A B : Type} (f : A -> completion B) (l : list A)
  : completion (list B) :=
  match l with
  | [] => Normal []
  | x :: xs =>
      y <- f x ;;
      ys <- array_map f xs ;;
      Normal (y :: ys)
  end.

(** The error of [undefined.name]. *)
Definition undefined_name : js_error :=
  TypeError "Cannot read properties of undefined (reading 'name')".

(** [restaurant.name], where [restaurant] is the result of a [find]. *)
Definition get_name (restaurant : option Restaurant.t) : completion string :=
  match restaurant with
  | Some r => Normal (Restaurant.name r)
  | None => Throw undefined_name
  end.

(** [v || ''] on a value that is a string or [undefined]: the empty string is
    the only falsy string. *)
Definition or_empty (v : option string) : string :=
  match v with
  | Some s => if String.eqb s "" then "" else s
  | None => ""
  end.

(** ** Responses *)

Inductive payload : Type :=
| ViewList (l : list View.t)
| ViewOne (v : View.t)
| RecordOne (r : Starred.t).

(** What a handler does with [res]: [res.sendStatus(code)],
    [res.status(code).json(body)] ([res.json(body)] is status 200), or
    nothing at all because an exception left the handler. *)
Inductive response : Type :=
| sendStatus (code : nat)
| json (code : nat) (body : payload)
| uncaught (e : js_error).

(** [res.sendStatus(code)] sets the status and sends the status message
    registered for the code as the text of the body.  The messages of the
    four codes this router uses; [None] for a code it never sends. *)
Definition status_message (code : nat) : option string :=
  if Nat.eqb code 200 then Some "OK"
  else if Nat.eqb code 201 then Some "Created"
  else if Nat.eqb code 404 then Some "Not Found"
  else if Nat.eqb code 409 then Some "Conflict"
  else None.

(** The text that a [sendStatus] response carries as its body; [None] for a
    response that is not a [sendStatus]. *)
Definition status_body (r : response) : option string :=
  match r with
  | sendStatus code => status_message code
  | _ => None
  end.

(** ** Handlers *)

Section Handlers.

Variable ALL_RESTAURANTS : list Restaurant.t.

(** [ALL_RESTAURANTS.find(r => r.id === restaurantId)] *)
Definition find_restaurant (restaurantId : string) : option Restaurant.t :=
  find (fun r => String.eqb (Restaurant.id r) restaurantId) ALL_RESTAURANTS.

(** [STARRED_RESTAURANTS.find(r => r.id === id)] *)
Definition find_starred (st : state) (id : string) : option Starred.t :=
  find (fun r => String.eqb (Starred.id r) id) st.

(** The callback of the map at lines 32-42. *)
Definition join (starredRestaurant : Starred.t) : completion View.t :=
  let restaurant :=
    find_restaurant (Starred.restaurantId starredRestaurant) in
  name <- get_name restaurant ;;
  Normal (View.mk (Starred.id starredRestaurant)
                  (Starred.comment starredRestaurant)
                  name).

(** The view [v] is what the callback makes of the record [s] when the
    lookup finds a restaurant. *)
Definition joined (s : Starred.t) (v : View.t) : Prop :=
  View.id v = Starred.id s
  /\ View.comment v = Starred.comment s
  /\ exists restaurant,
       find_restaurant (Starred.restaurantId s) = Some restaurant
       /\ View.name v = Restaurant.name restaurant.

(** Feature 6, [router.get("/")] (lines 26-46). *)
Definition list_all (st : state) : state * response :=
  match array_map join st with
  | Normal joinedStarredRestaurants =>
      (st, json 200 (ViewList joinedStarredRestaurants))
  | Throw e => (st, uncaught e)
  end.

(** Feature 7, [router.get('/:id')] (lines 58-75). *)
Definition get_by_id (st : state) (id : string) : state * response :=
  match find_starred st id with
  | None => (st, sendStatus 404)
  | Some starredRestaurant =>
      match find_restaurant (Starred.restaurantId starredRestaurant) with
      | None => (st, sendStatus 404)
      | Some restaurant =>
          (st, json 200 (ViewOne (View.mk (Starred.id starredRestaurant)
                                         (Starred.comment starredRestaurant)
                                         (Restaurant.name restaurant))))
      end
  end.

(** Feature 8, [router.post('/')] (lines 89-111).  [uuid] is the value
    returned by [uuidv4()]; [comment] is [None] when the body has no
    [comment] field. *)
Definition create (st : state) (restaurantId : string)
    (comment : option string) (uuid : string) : state * response :=
  match find_restaurant restaurantId with
  | None => (st, sendStatus 404)
  | Some _ =>
      let alreadyStarred :=
        existsb (fun r => String.eqb (Starred.restaurantId r) restaurantId) st in
      if alreadyStarred then (st, sendStatus 409)
      else
        let newStarred := Starred.mk uuid restaurantId (or_empty comment) in
        (st ++ [newStarred], json 201 (RecordOne newStarred))
  end.

(** Feature 9, [router.delete('/:id')] (lines 121-130). *)
Definition delete_by_id (st : state) (id : string) : state * response :=
  let newList := filter (fun r => negb (String.eqb (Starred.id r) id)) st in
  if Nat.eqb (length newList) (length st) then (st, sendStatus 404)
  else (newList, sendStatus 200).

(** ** The route table

    The router registers four routes, in this order: GET [/], GET [/:id],
    POST [/] and DELETE [/:id].  Feature 10 (lines 132-139) is a comment
    that lists the steps of a comment update; no route is registered for
    it. *)

(** The request methods of a REST resource. *)
Inductive method : Type := GET | POST | DELETE | PUT | PATCH.

(** The path below the mount point: [/] or [/:id]. *)
Inductive target : Type :=
| Root
| Item (id : string).

(** [req.body], a JSON object whose fields may be missing. *)
Record body : Type :=
  mkBody { body_restaurantId : option string; body_comment : option string }.

Record request : Type :=
  mkRequest { req_method : method; req_target : target; req_body : body }.

(** One request through the router.  [None] as the response: no route
    matched, and the router hands the request on without running any of its
    handlers.  A POST whose body has no [restaurantId] compares every
    catalogue id with [undefined], finds nothing and answers 404. *)
Definition serve (st : state) (uuid : string) (req : request)
  : state * option response :=
  match req_method req, req_target req with
  | GET, Root => let (st', r) := list_all st in (st', Some r)
  | GET, Item id => let (st', r) := get_by_id st id in (st', Some r)
  | POST, Root =>
      match body_restaurantId (req_body req) with
      | Some restaurantId =>
          let (st', r) :=
            create st restaurantId (body_comment (req_body req)) uuid in
          (st', Some r)
      | None => (st, Some (sendStatus 404))
      end
  | DELETE, Item id => let (st', r) := delete_by_id st id in (st', Some r)
  | _, _ => (st, None)
  end.

(** ** Sequences of operations *)

Inductive op : Type :=
| OpList
| OpGet (id : string)
| OpCreate (restaurantId : string) (comment : option string) (uuid : string)
| OpDelete (id : string).

Definition step (st : state) (o : op) : state * response :=
  match o with
  | OpList => list_all st
  | OpGet id => get_by_id st id
  | OpCreate restaurantId comment uuid => create st restaurantId comment uuid
  | OpDelete id => delete_by_id st id
  end.

(** The array after the operations [ops], run from left to right. *)
Definition run (ops : list op) (st : state) : state :=
  fold_left (fun st o => fst (step st o)) ops st.

(** Every [uuidv4()] of the run returns an id that no record of the array has
    at that moment. *)
Fixpoint uuids_fresh (ops : list op) (st : state) : Prop :=
  match ops with
  | [] => True
  | o :: ops' =>
      match o with
      | OpCreate _ _ uuid => ~ In uuid (map Starred.id st)
      | _ => True
      end
      /\ uuids_fresh ops' (fst (step st o))
  end.

End Handlers.

(** ** Sample data *)

(** A catalogue that holds the two restaurants of the initial array and one
    more. *)
Definition sample_catalogue : list Restaurant.t :=
  [ Restaurant.mk "869c848c-7a58-4ed6-ab88-72ee2e8e677c" "Pho Palace";
    Restaurant.mk "e8036613-4b72-46f6-ab5e-edd2fc7c4fe4" "Lunch Box";
    Restaurant.mk "R3" "Third Place" ].

(** A catalogue without the restaurants of the initial array. *)
Definition other_catalogue : list Restaurant.t :=
  [ Restaurant.mk "R3" "Third Place" ].

(** An array in which two records share an id. *)
Definition shared_id_state : state :=
  [ Starred.mk "s1" "R1" "first";
    Starred.mk "s2" "R2" "second";
    Starred.mk "s1" "R3" "third" ].

Example list_seed :
  list_all sample_catalogue STARRED_RESTAURANTS
  = (STARRED_RESTAURANTS,
     json 200 (ViewList
       [ View.mk "a7272cd9-26fb-44b5-8d53-9781f55175a1" "Best pho in NYC"
                 "Pho Palace";
         View.mk "8df59b21-2152-4f9b-9200-95c19aa88226"
                 "Their lunch special is the best!" "Lunch Box" ])).
Proof. reflexivity. Qed.

Example create_then_conflict :
  let (S1, r1) := create sample_catalogue [] "R3" (Some "Great!") "u1" in
  r1 = json 201 (RecordOne (Starred.mk "u1" "R3" "Great!"))
  /\ create sample_catalogue S1 "R3" (Some "Great!") "u2" = (S1, sendStatus 409)
  /\ delete_by_id S1 "u1" = ([], sendStatus 200)
  /\ get_by_id sample_catalogue S1 "nonexistent-id" = (S1, sendStatus 404)
  /\ create sample_catalogue S1 "unknown-id" None "u3" = (S1, sendStatus 404).
Proof. cbv. repeat split. Qed.

(** ** Arrays searched by a string key

    [find], [some] and [filter] are all called with a callback that compares
    one string field with a given string. *)

Section Keyed.

Context {A : Type}.
Variable key : A -> string.

(** The callback [r => r.key === k]. *)
Local Abbreviation has_key k := (fun x => String.eqb (key x) k).

(** [l.filter(r => r.key !== k)] *)
Local Abbreviation drop_key k l :=
  (filter (fun x => negb (String.eqb (key x) k)) l).

Lemma find_key_none (k : string) (l : list A) :
  find (has_key k) l = None <-> ~ In k (map key l).
Proof.
  induction l as [|x l IH]; simpl.
  - split; [intros _ H; exact H | reflexivity].
  - destruct (String.eqb_spec (key x) k) as [E|E].
    + split; [discriminate | intros H; exfalso; apply H; left; exact E].
    + rewrite IH. split.
      * intros H [H1|H1]; [exact (E H1) | exact (H H1)].
      * intros H H1. apply H. right. exact H1.
Qed.

Lemma find_key_some (k : string) (l : list A) (x : A) :
  find (has_key k) l = Some x -> In x l /\ key x = k.
Proof.
  intros H. apply find_some in H. destruct H as [H1 H2].
  split; [exact H1 | apply String.eqb_eq; exact H2].
Qed.

Lemma find_key_in (k : string) (l : list A) :
  In k (map key l) -> exists x, find (has_key k) l = Some x.
Proof.
  intros H. destruct (find (has_key k) l) as [x|] eqn:E.
  - exists x. reflexivity.
  - apply find_key_none in E. contradiction.
Qed.

(** [find] returns the first element that carries the key. *)
Lemma find_key_first (k : string) (l1 l2 : list A) (x : A) :
  key x = k -> ~ In k (map key l1) ->
  find (has_key k) (l1 ++ x :: l2) = Some x.
Proof.
  intros Hx.
  induction l1 as [|y l1 IH]; simpl; intros Hn.
  - rewrite Hx, String.eqb_refl. reflexivity.
  - destruct (String.eqb_spec (key y) k) as [E|E].
    + exfalso. apply Hn. left. exact E.
    + apply IH. intros H. apply Hn. right. exact H.
Qed.

Lemma existsb_key (k : string) (l : list A) :
  existsb (has_key k) l = true <-> In k (map key l).
Proof.
  rewrite existsb_exists, in_map_iff. split.
  - intros [x [H1 H2]]. exists x. split; [apply String.eqb_eq; exact H2 | exact H1].
  - intros [x [H1 H2]]. exists x. split; [exact H2 | apply String.eqb_eq; exact H1].
Qed.

Lemma existsb_key_false (k : string) (l : list A) :
  existsb (has_key k) l = false <-> ~ In k (map key l).
Proof.
  rewrite <- existsb_key. destruct (existsb (has_key k) l); split; intros H.
  - discriminate.
  - exfalso. apply H. reflexivity.
  - discriminate.
  - reflexivity.
Qed.

Lemma drop_key_absent (k : string) (l : list A) :
  ~ In k (map key l) -> drop_key k l = l.
Proof.
  induction l as [|x l IH]; simpl; intros Hn.
  - reflexivity.
  - destruct (String.eqb_spec (key x) k) as [E|E]; simpl.
    + exfalso. apply Hn. left. exact E.
    + f_equal. apply IH. intros H. apply Hn. right. exact H.
Qed.

Lemma drop_key_length_le (k : string) (l : list A) :
  length (drop_key k l) <= length l.
Proof. apply filter_length_le. Qed.

Lemma drop_key_present (k : string) (l : list A) :
  In k (map key l) -> length (drop_key k l) < length l.
Proof.
  induction l as [|x l IH]; simpl; intros H.
  - contradiction.
  -     destruct (String.eqb_spec (key x) k) as [E|E]; simpl.
    + pose proof (filter_length_le
                    (fun x => negb (String.eqb (key x) k)) l) as Hle.
      lia.
    + destruct H as [H|H]; [contradiction|].
      specialize (IH H). lia.
Qed.

Lemma drop_key_gone (k : string) (l : list A) :
  ~ In k (map key (drop_key k l)).
Proof.
  rewrite in_map_iff.
  intros [x [H1 H2]]. apply filter_In in H2. destruct H2 as [_ H2].
  rewrite H1, String.eqb_refl in H2. discriminate.
Qed.

Lemma drop_key_in (k : string) (l : list A) (x : A) :
  In x (drop_key k l) <-> In x l /\ key x <> k.
Proof.
  rewrite filter_In.
  destruct (String.eqb_spec (key x) k) as [E|E]; simpl.
  - split; [intros [_ H]; discriminate | intros [_ H]; contradiction].
  - split; intros [H _]; split; auto.
Qed.

(** With unique keys, dropping a key takes out one element and leaves the
    others where they were. *)
Lemma drop_key_unique (k : string) (l : list A) :
  NoDup (map key l) -> In k (map key l) ->
  exists l1 x l2,
    l = l1 ++ x :: l2 /\ key x = k /\ drop_key k l = l1 ++ l2.
Proof.
  induction l as [|y l IH]; simpl; intros Hnd Hin.
  - contradiction.
  - inversion Hnd as [|? ? Hy Hnd']; subst.
    destruct (String.eqb_spec (key y) k) as [E|E]; simpl.
    + exists [], y, l. repeat split; [exact E|].
      apply drop_key_absent. rewrite <- E. exact Hy.
    + destruct Hin as [Hin|Hin]; [contradiction|].
      destruct (IH Hnd' Hin) as [l1 [x [l2 [H1 [H2 H3]]]]].
      exists (y :: l1), x, l2. repeat split.
      * simpl. rewrite <- H1. reflexivity.
      * exact H2.
      * simpl. f_equal. exact H3.
Qed.

End Keyed.

(** ** Distinct values of a field *)

Section Field.

Context {A B : Type}.
Variable field : A -> B.

(** The values of the field stay distinct when elements are filtered out. *)
Lemma filter_keeps_distinct (keep : A -> bool) (arr : list A) :
  NoDup (map field arr) -> NoDup (map field (filter keep arr)).
Proof.
  induction arr as [|x arr IH]; simpl; intros H.
  - constructor.
  - inversion H as [|? ? Hx Harr]; subst.
    destruct (keep x); simpl.
    + constructor; [|apply IH; exact Harr].
      intros Hin. apply Hx. apply in_map_iff in Hin.
      destruct Hin as [y [Hy1 Hy2]]. apply filter_In in Hy2.
      apply in_map_iff. exists y. tauto.
    + apply IH. exact Harr.
Qed.

(** They stay distinct when an element with a new value is pushed. *)
Lemma push_keeps_distinct (arr : list A) (x : A) :
  NoDup (map field arr) -> ~ In (field x) (map field arr) ->
  NoDup (map field (arr ++ [x])).
Proof.
  intros Harr Hx. rewrite map_app. simpl.
  apply NoDup_app.
  - exact Harr.
  - constructor; [intros []|constructor].
  - intros y Hy [Hy'|[]]. subst. contradiction.
Qed.

End Field.

(** Membership and non-membership in a list of string literals. *)
Ltac in_literals := simpl; repeat (first [left; reflexivity | right]).
Ltac not_in_literals :=
  let H := fresh "H" in
  simpl; intros H; repeat destruct H as [H|H]; solve [discriminate H | exact H].
Ltac nodup_literals :=
  simpl; repeat (constructor; [not_in_literals|]); constructor.

(** ** Properties of the handlers *)

Section Properties.

Variable ALL_RESTAURANTS : list Restaurant.t.

Local Abbreviation in_catalogue restaurantId :=
  (In restaurantId (map Restaurant.id ALL_RESTAURANTS)).

Lemma or_empty_default (comment : option string) :
  or_empty comment = match comment with Some c => c | None => "" end.
Proof.
  destruct comment as [c|]; simpl; [|reflexivity].
  destruct (String.eqb_spec c "") as [E|E]; [symmetry; exact E | reflexivity].
Qed.

Lemma find_restaurant_none (restaurantId : string) :
  find_restaurant ALL_RESTAURANTS restaurantId = None
  <-> ~ in_catalogue restaurantId.
Proof. apply (find_key_none Restaurant.id). Qed.

Lemma find_restaurant_some (restaurantId : string) :
  in_catalogue restaurantId ->
  exists r, find_restaurant ALL_RESTAURANTS restaurantId = Some r
            /\ In r ALL_RESTAURANTS /\ Restaurant.id r = restaurantId.
Proof.
  intros H. destruct (find_key_in Restaurant.id _ _ H) as [r Hr].
  exists r. split; [exact Hr|]. apply (find_key_some Restaurant.id). exact Hr.
Qed.

(** *** Create *)

Lemma create_created (st : state) (restaurantId : string)
    (comment : option string) (uuid : string) :
  in_catalogue restaurantId ->
  ~ In restaurantId (map Starred.restaurantId st) ->
  create ALL_RESTAURANTS st restaurantId comment uuid
  = (st ++ [Starred.mk uuid restaurantId (or_empty comment)],
     json 201 (RecordOne (Starred.mk uuid restaurantId (or_empty comment)))).
Proof.
  intros Hcat Hnew. unfold create.
  destruct (find_restaurant_some _ Hcat) as [r [Hr _]]. rewrite Hr.
  apply (existsb_key_false Starred.restaurantId) in Hnew. rewrite Hnew.
  reflexivity.
Qed.

Lemma create_not_found (st : state) (restaurantId : string)
    (comment : option string) (uuid : string) :
  ~ in_catalogue restaurantId ->
  create ALL_RESTAURANTS st restaurantId comment uuid = (st, sendStatus 404).
Proof.
  intros H. unfold create.
  apply find_restaurant_none in H. rewrite H. reflexivity.
Qed.

Lemma create_conflict (st : state) (restaurantId : string)
    (comment : option string) (uuid : string) :
  in_catalogue restaurantId ->
  In restaurantId (map Starred.restaurantId st) ->
  create ALL_RESTAURANTS st restaurantId comment uuid = (st, sendStatus 409).
Proof.
  intros Hcat Hin. unfold create.
  destruct (find_restaurant_some _ Hcat) as [r [Hr _]]. rewrite Hr.
  apply (existsb_key Starred.restaurantId) in Hin. rewrite Hin. reflexivity.
Qed.

(** C3: when the requested restaurant is in the catalogue and is not starred
    yet, Create leaves the old records where they are, puts one record
    [{id, restaurantId, comment}] behind them, with the id that [uuidv4()]
    returned and the empty string for a missing comment, and answers 201 with
    that very record.  An id that is new to the array keeps the ids of the
    array distinct. *)
Theorem create_appends (st : state) (restaurantId : string)
    (comment : option string) (uuid : string) :
  in_catalogue restaurantId ->
  ~ In restaurantId (map Starred.restaurantId st) ->
  let newStarred :=
    Starred.mk uuid restaurantId
               (match comment with Some c => c | None => "" end) in
  create ALL_RESTAURANTS st restaurantId comment uuid
  = (st ++ [newStarred], json 201 (RecordOne newStarred))
  /\ (NoDup (map Starred.id st) -> ~ In uuid (map Starred.id st) ->
      NoDup (map Starred.id (st ++ [newStarred]))).
Proof.
  intros Hcat Hnew newStarred. split.
  - rewrite (create_created st restaurantId comment uuid Hcat Hnew).
    unfold newStarred. rewrite or_empty_default. reflexivity.
  - intros Hnd Hfresh. apply push_keeps_distinct; assumption.
Qed.

(** C4, as the code has it: Create answers 404 and leaves the array as it is
    when the restaurant is not in the catalogue; it answers 409 and leaves
    the array as it is when the restaurant is in the catalogue and a record
    with that [restaurantId] is in the array. *)
Theorem create_refuses (st : state) (restaurantId : string)
    (comment : option string) (uuid : string) :
  (~ in_catalogue restaurantId ->
   create ALL_RESTAURANTS st restaurantId comment uuid = (st, sendStatus 404))
  /\ (in_catalogue restaurantId ->
      In restaurantId (map Starred.restaurantId st) ->
      create ALL_RESTAURANTS st restaurantId comment uuid
      = (st, sendStatus 409)).
Proof.
  split.
  - apply create_not_found.
  - apply create_conflict.
Qed.

(** Create never touches the records that are already there. *)
Lemma create_state (st : state) (restaurantId : string)
    (comment : option string) (uuid : string) :
  fst (create ALL_RESTAURANTS st restaurantId comment uuid) = st
  \/ (in_catalogue restaurantId
      /\ ~ In restaurantId (map Starred.restaurantId st)
      /\ fst (create ALL_RESTAURANTS st restaurantId comment uuid)
         = st ++ [Starred.mk uuid restaurantId (or_empty comment)]).
Proof.
  unfold create.
  destruct (find_restaurant ALL_RESTAURANTS restaurantId) as [r|] eqn:Er;
    [|left; reflexivity].
  destruct (existsb _ st) eqn:E; [left; reflexivity|].
  right. split; [|split; [|reflexivity]].
  - apply (find_key_some Restaurant.id) in Er. destruct Er as [Hin Hid].
    apply in_map_iff. exists r. split; assumption.
  - apply (existsb_key_false Starred.restaurantId). exact E.
Qed.

(** *** Get by id *)

Lemma get_by_id_state (st : state) (id : string) :
  fst (get_by_id ALL_RESTAURANTS st id) = st.
Proof.
  unfold get_by_id. destruct (find_starred st id) as [s|]; [|reflexivity].
  destruct (find_restaurant _ _); reflexivity.
Qed.

(** C5: Get-by-id answers 404 when no record has the id; otherwise it takes
    the first record with the id and answers 404 when the catalogue has no
    entry for its [restaurantId], and 200 with [{id, comment, name}], the
    name being that of the first catalogue entry for the [restaurantId],
    when it has one.  The array is the same afterwards in every case. *)
Theorem get_by_id_spec (st : state) (id : string) :
  fst (get_by_id ALL_RESTAURANTS st id) = st
  /\ (~ In id (map Starred.id st) ->
      get_by_id ALL_RESTAURANTS st id = (st, sendStatus 404))
  /\ (forall before starred after,
        st = before ++ starred :: after ->
        Starred.id starred = id ->
        ~ In id (map Starred.id before) ->
        (~ in_catalogue (Starred.restaurantId starred) ->
         get_by_id ALL_RESTAURANTS st id = (st, sendStatus 404))
        /\ (forall c1 restaurant c2,
              ALL_RESTAURANTS = c1 ++ restaurant :: c2 ->
              Restaurant.id restaurant = Starred.restaurantId starred ->
              ~ In (Starred.restaurantId starred) (map Restaurant.id c1) ->
              get_by_id ALL_RESTAURANTS st id
              = (st, json 200 (ViewOne (View.mk id
                                          (Starred.comment starred)
                                          (Restaurant.name restaurant)))))).
Proof.
  split; [apply get_by_id_state|].
  unfold get_by_id, find_starred. split.
  - intros H. apply (find_key_none Starred.id) in H. rewrite H. reflexivity.
  - intros before starred after Hst Hid Hfirst.
    assert (Hf : find (fun r => String.eqb (Starred.id r) id) st
                 = Some starred).
    { rewrite Hst. apply (find_key_first Starred.id); assumption. }
    rewrite Hf. split.
    + intros H. apply find_restaurant_none in H. rewrite H. reflexivity.
    + intros c1 restaurant c2 HC Hrid Hc1.
      assert (Hr : find_restaurant ALL_RESTAURANTS
                     (Starred.restaurantId starred) = Some restaurant).
      { unfold find_restaurant. rewrite HC.
        apply (find_key_first Restaurant.id); assumption. }
      rewrite Hr, Hid. reflexivity.
Qed.

(** C8: after a Create that succeeds, with an id from [uuidv4()] that no
    record of the array has, Get-by-id with the id of the created record
    answers 200 with a view whose name is the name of the catalogue entry of
    the requested restaurant. *)
Theorem create_then_get (st : state) (restaurantId : string)
    (comment : option string) (uuid : string) :
  in_catalogue restaurantId ->
  ~ In restaurantId (map Starred.restaurantId st) ->
  ~ In uuid (map Starred.id st) ->
  exists created restaurant,
    create ALL_RESTAURANTS st restaurantId comment uuid
    = (st ++ [created], json 201 (RecordOne created))
    /\ find_restaurant ALL_RESTAURANTS restaurantId = Some restaurant
    /\ In restaurant ALL_RESTAURANTS
    /\ Restaurant.id restaurant = restaurantId
    /\ get_by_id ALL_RESTAURANTS (st ++ [created]) (Starred.id created)
       = (st ++ [created],
          json 200 (ViewOne (View.mk (Starred.id created)
                                     (Starred.comment created)
                                     (Restaurant.name restaurant)))).
Proof.
  intros Hcat Hnew Hfresh.
  pose proof (create_created st restaurantId comment uuid Hcat Hnew) as Hc.
  destruct (find_restaurant_some _ Hcat) as [restaurant [Hr [Hin Hid]]].
  set (created := Starred.mk uuid restaurantId (or_empty comment)) in *.
  exists created, restaurant.
  split; [exact Hc|]. split; [exact Hr|]. split; [exact Hin|].
  split; [exact Hid|].
  change (Starred.id created) with uuid.
  unfold get_by_id, find_starred.
  rewrite (find_key_first Starred.id uuid st [] created eq_refl Hfresh).
  simpl. rewrite Hr. reflexivity.
Qed.

(** *** Delete by id *)

Lemma delete_by_id_absent (st : state) (id : string) :
  ~ In id (map Starred.id st) -> delete_by_id st id = (st, sendStatus 404).
Proof.
  intros H. unfold delete_by_id.
  rewrite (drop_key_absent Starred.id _ _ H), Nat.eqb_refl. reflexivity.
Qed.

Lemma delete_by_id_present (st : state) (id : string) :
  In id (map Starred.id st) ->
  delete_by_id st id
  = (filter (fun r => negb (String.eqb (Starred.id r) id)) st, sendStatus 200).
Proof.
  intros H. unfold delete_by_id.
  pose proof (drop_key_present Starred.id _ _ H) as Hlt.
  destruct (Nat.eqb_spec
              (length (filter (fun r => negb (String.eqb (Starred.id r) id)) st))
              (length st)) as [E|E]; [lia | reflexivity].
Qed.

(** C6, as the code has it: Delete-by-id answers 404 and leaves the array as
    it is when no record has the id.  In an array whose ids are distinct,
    when a record has the id, that one record is taken out, the records
    before and after it stay in their order, and the answer is
    [sendStatus(200)], whose body is the text [OK] and not empty. *)
Theorem delete_by_id_spec (st : state) (id : string) :
  (~ In id (map Starred.id st) -> delete_by_id st id = (st, sendStatus 404))
  /\ (NoDup (map Starred.id st) -> In id (map Starred.id st) ->
      exists before starred after,
        st = before ++ starred :: after
        /\ Starred.id starred = id
        /\ delete_by_id st id = (before ++ after, sendStatus 200)
        /\ length (fst (delete_by_id st id)) + 1 = length st)
  /\ (In id (map Starred.id st) ->
      status_body (snd (delete_by_id st id)) = Some "OK").
Proof.
  split; [|split].
  - apply delete_by_id_absent.
  - intros Hnd Hin.
    destruct (drop_key_unique Starred.id id st Hnd Hin)
      as [before [starred [after [H1 [H2 H3]]]]].
    exists before, starred, after.
    rewrite (delete_by_id_present _ _ Hin), H3.
    repeat split; try assumption.
    simpl. rewrite H1, !length_app. simpl. lia.
  - intros Hin. rewrite (delete_by_id_present _ _ Hin). reflexivity.
Qed.

(** C10: a Delete-by-id that finds the id keeps exactly the records whose id
    differs from it: the array afterwards is the filter of the array before,
    no record with the id is left, however many records had it, and every
    other record is still there. *)
Theorem delete_removes_every_match (st : state) (id : string) :
  In id (map Starred.id st) ->
  delete_by_id st id
  = (filter (fun r => negb (String.eqb (Starred.id r) id)) st, sendStatus 200)
  /\ ~ In id (map Starred.id (fst (delete_by_id st id)))
  /\ (forall r, In r (fst (delete_by_id st id))
                <-> In r st /\ Starred.id r <> id).
Proof.
  intros Hin. rewrite (delete_by_id_present _ _ Hin). simpl.
  split; [reflexivity|]. split.
  - apply (drop_key_gone Starred.id).
  - intros r. apply (drop_key_in Starred.id).
Qed.

(** *** List *)

Lemma join_found (s : Starred.t) :
  in_catalogue (Starred.restaurantId s) ->
  exists v, join ALL_RESTAURANTS s = Normal v /\ joined ALL_RESTAURANTS s v.
Proof.
  intros H. destruct (find_restaurant_some _ H) as [r [Hr _]].
  unfold join. rewrite Hr. simpl.
  eexists. split; [reflexivity|].
  unfold joined. simpl. repeat split. exists r. split; [exact Hr | reflexivity].
Qed.

Lemma join_dangling (s : Starred.t) :
  ~ in_catalogue (Starred.restaurantId s) ->
  join ALL_RESTAURANTS s = Throw undefined_name.
Proof.
  intros H. apply find_restaurant_none in H.
  unfold join. rewrite H. reflexivity.
Qed.

Lemma join_throws (s : Starred.t) (e : js_error) :
  join ALL_RESTAURANTS s = Throw e -> e = undefined_name.
Proof.
  unfold join.
  destruct (find_restaurant _ _); simpl; intros H; inversion H; reflexivity.
Qed.

Lemma array_map_join_all (st : state) :
  Forall (fun s => in_catalogue (Starred.restaurantId s)) st ->
  exists views, array_map (join ALL_RESTAURANTS) st = Normal views
                /\ Forall2 (joined ALL_RESTAURANTS) st views.
Proof.
  induction 1 as [|s st Hs _ IH]; simpl.
  - exists []. split; [reflexivity | constructor].
  - destruct (join_found s Hs) as [v [Hv Hj]].
    destruct IH as [views [Hviews HF]].
    exists (v :: views). rewrite Hv, Hviews. simpl.
    split; [reflexivity | constructor; assumption].
Qed.

Lemma array_map_join_dangling (st : state) :
  Exists (fun s => ~ in_catalogue (Starred.restaurantId s)) st ->
  array_map (join ALL_RESTAURANTS) st = Throw undefined_name.
Proof.
  induction 1 as [s st Hs | s st _ IH]; simpl.
  - rewrite (join_dangling s Hs). reflexivity.
  - destruct (join ALL_RESTAURANTS s) as [v|e] eqn:E; simpl.
    + rewrite IH. reflexivity.
    + apply join_throws in E. rewrite E. reflexivity.
Qed.

(** C7, as the code has it: when every record of the array has its
    restaurant in the catalogue, List answers 200 with one view
    [{id, comment, name}] per record, in the order of the array, the name
    being that of the catalogue entry found for the record's [restaurantId];
    the array is the same afterwards. *)
Theorem list_all_joins (st : state) :
  Forall (fun s => in_catalogue (Starred.restaurantId s)) st ->
  exists views,
    list_all ALL_RESTAURANTS st = (st, json 200 (ViewList views))
    /\ length views = length st
    /\ Forall2 (joined ALL_RESTAURANTS) st views.
Proof.
  intros H. destruct (array_map_join_all st H) as [views [Hv HF]].
  exists views. unfold list_all. rewrite Hv.
  split; [reflexivity|]. split; [|exact HF].
  symmetry. apply (Forall2_length HF).
Qed.

(** C9: when some record of the array has a [restaurantId] without a
    catalogue entry, the lookup for it finds nothing, reading [name] throws,
    and the exception leaves the handler: List sends neither a list with the
    record left out nor a status.  The array is the same afterwards. *)
Theorem list_all_dangling (st : state) :
  Exists (fun s => ~ in_catalogue (Starred.restaurantId s)) st ->
  (exists s, In s st
             /\ find_restaurant ALL_RESTAURANTS (Starred.restaurantId s) = None
             /\ get_name (find_restaurant ALL_RESTAURANTS
                            (Starred.restaurantId s))
                = Throw undefined_name)
  /\ list_all ALL_RESTAURANTS st = (st, uncaught undefined_name)
  /\ (forall code views,
        snd (list_all ALL_RESTAURANTS st) <> json code (ViewList views))
  /\ (forall code, snd (list_all ALL_RESTAURANTS st) <> sendStatus code).
Proof.
  intros H.
  assert (Hl : list_all ALL_RESTAURANTS st = (st, uncaught undefined_name)).
  { unfold list_all. rewrite (array_map_join_dangling st H). reflexivity. }
  split; [|split; [exact Hl|]].
  - apply Exists_exists in H. destruct H as [s [Hin Hs]].
    apply find_restaurant_none in Hs.
    exists s. rewrite Hs. repeat split; assumption.
  - rewrite Hl. simpl. split; intros; discriminate.
Qed.

(** *** Sequences of operations *)

Lemma step_keeps_restaurantId_unique (st : state) (o : op) :
  NoDup (map Starred.restaurantId st) ->
  NoDup (map Starred.restaurantId (fst (step ALL_RESTAURANTS st o))).
Proof.
  intros Hnd. destruct o as [|id|restaurantId comment uuid|id]; simpl.
  - unfold list_all. destruct (array_map _ st); exact Hnd.
  - rewrite get_by_id_state. exact Hnd.
  - destruct (create_state st restaurantId comment uuid) as [H|[_ [Hnew H]]];
      rewrite H; [exact Hnd|].
    apply push_keeps_distinct; assumption.
  - unfold delete_by_id.
    destruct (Nat.eqb _ _); simpl; [exact Hnd|].
    apply filter_keeps_distinct. exact Hnd.
Qed.

Lemma run_keeps_restaurantId_unique (ops : list op) (st : state) :
  NoDup (map Starred.restaurantId st) ->
  NoDup (map Starred.restaurantId (run ALL_RESTAURANTS ops st)).
Proof.
  revert st. induction ops as [|o ops IH]; simpl; intros st Hnd.
  - exact Hnd.
  - apply IH. apply step_keeps_restaurantId_unique. exact Hnd.
Qed.

Lemma seed_restaurantId_unique :
  NoDup (map Starred.restaurantId STARRED_RESTAURANTS).
Proof. nodup_literals. Qed.

(** A record is only ever made for a restaurant of the catalogue. *)
Lemma step_keeps_catalogued (st : state) (o : op) :
  Forall (fun s => in_catalogue (Starred.restaurantId s)) st ->
  Forall (fun s => in_catalogue (Starred.restaurantId s))
         (fst (step ALL_RESTAURANTS st o)).
Proof.
  intros Hall. destruct o as [|id|restaurantId comment uuid|id]; simpl.
  - unfold list_all. destruct (array_map _ st); exact Hall.
  - rewrite get_by_id_state. exact Hall.
  - destruct (create_state st restaurantId comment uuid) as [H|[Hcat [_ H]]];
      rewrite H; [exact Hall|].
    apply Forall_app. split; [exact Hall|].
    constructor; [exact Hcat | constructor].
  - unfold delete_by_id.
    destruct (Nat.eqb _ _); simpl; [exact Hall|].
    apply Forall_forall. intros s Hs. apply filter_In in Hs.
    rewrite Forall_forall in Hall. apply Hall, Hs.
Qed.

Lemma run_keeps_catalogued (ops : list op) (st : state) :
  Forall (fun s => in_catalogue (Starred.restaurantId s)) st ->
  Forall (fun s => in_catalogue (Starred.restaurantId s))
         (run ALL_RESTAURANTS ops st).
Proof.
  revert st. induction ops as [|o ops IH]; simpl; intros st Hall.
  - exact Hall.
  - apply IH. apply step_keeps_catalogued. exact Hall.
Qed.

(** The ids of the array stay distinct as long as [uuidv4()] returns ids
    that are not in the array. *)
Lemma id_unique_along_runs (ops : list op) (st : state) :
  NoDup (map Starred.id st) ->
  uuids_fresh ALL_RESTAURANTS ops st ->
  NoDup (map Starred.id (run ALL_RESTAURANTS ops st)).
Proof.
  revert st. induction ops as [|o ops IH]; simpl; intros st Hnd Hfresh.
  - exact Hnd.
  - destruct Hfresh as [Ho Hrest]. apply IH; [|exact Hrest].
    destruct o as [|id|restaurantId comment uuid|id]; simpl.
    + unfold list_all. destruct (array_map _ st); exact Hnd.
    + rewrite get_by_id_state. exact Hnd.
    + destruct (create_state st restaurantId comment uuid) as [H|[_ [_ H]]];
        rewrite H; [exact Hnd|].
      apply push_keeps_distinct; assumption.
    + unfold delete_by_id.
      destruct (Nat.eqb _ _); simpl; [exact Hnd|].
      apply filter_keeps_distinct. exact Hnd.
Qed.

(** Create answers a request for a starred restaurant with a refusal
    whatever the catalogue: the check of lines 92-96 comes first and answers
    404, the check of lines 98-102 answers 409. *)
Lemma create_starred_refused (st : state) (restaurantId : string)
    (comment : option string) (uuid : string) :
  In restaurantId (map Starred.restaurantId st) ->
  create ALL_RESTAURANTS st restaurantId comment uuid
  = (st, sendStatus (match find_restaurant ALL_RESTAURANTS restaurantId with
                     | Some _ => 409
                     | None => 404
                     end)).
Proof.
  intros Hin. unfold create.
  destruct (find_restaurant ALL_RESTAURANTS restaurantId); [|reflexivity].
  apply (existsb_key Starred.restaurantId) in Hin. rewrite Hin. reflexivity.
Qed.

(** C1, as the code has it: after any sequence of operations from the
    initial array, no two records of the array have the same
    [restaurantId], and one more operation, whichever it is, keeps it so.  A
    Create for a [restaurantId] that a record of the array has is refused
    and leaves the array as it is: with 409 when the catalogue has the
    restaurant, with 404 when it has not.  The catalogue holding the
    restaurants of the initial array, the refusal is always 409. *)
Theorem restaurantId_unique_along_runs (ops : list op) :
  let st := run ALL_RESTAURANTS ops STARRED_RESTAURANTS in
  NoDup (map Starred.restaurantId st)
  /\ (forall o,
        NoDup (map Starred.restaurantId (fst (step ALL_RESTAURANTS st o))))
  /\ (forall restaurantId comment uuid,
        In restaurantId (map Starred.restaurantId st) ->
        (in_catalogue restaurantId ->
         create ALL_RESTAURANTS st restaurantId comment uuid
         = (st, sendStatus 409))
        /\ (~ in_catalogue restaurantId ->
            create ALL_RESTAURANTS st restaurantId comment uuid
            = (st, sendStatus 404)))
  /\ (Forall (fun s => in_catalogue (Starred.restaurantId s))
             STARRED_RESTAURANTS ->
      forall restaurantId comment uuid,
        In restaurantId (map Starred.restaurantId st) ->
        create ALL_RESTAURANTS st restaurantId comment uuid
        = (st, sendStatus 409)).
Proof.
  intros st.
  assert (Hnd : NoDup (map Starred.restaurantId st)).
  { apply run_keeps_restaurantId_unique, seed_restaurantId_unique. }
  split; [exact Hnd|]. split; [|split].
  - intros o. apply step_keeps_restaurantId_unique. exact Hnd.
  - intros restaurantId comment uuid Hin. split.
    + intros Hcat. apply create_conflict; assumption.
    + apply create_not_found.
  - intros Hseed restaurantId comment uuid Hin.
    apply create_conflict; [|exact Hin].
    pose proof (run_keeps_catalogued ops _ Hseed) as Hall.
    fold st in Hall. rewrite Forall_forall in Hall.
    apply in_map_iff in Hin. destruct Hin as [s [Hs Hin]].
    rewrite <- Hs. apply Hall. exact Hin.
Qed.

(** *** The missing route *)

(** C2: the router has no route for a comment update.  A PUT or a PATCH on
    [/:id] matches nothing: no handler runs, no response is sent by this
    router and the array is as before.  Whatever the request, a record that
    is in the array afterwards was in it before, unless it is the record a
    POST has just made: no request replaces the comment of a record. *)
Theorem update_comment_not_routed (st : state) (uuid : string) :
  (forall id b,
     serve ALL_RESTAURANTS st uuid (mkRequest PUT (Item id) b) = (st, None)
     /\ serve ALL_RESTAURANTS st uuid (mkRequest PATCH (Item id) b)
        = (st, None))
  /\ (forall req r,
        In r (fst (serve ALL_RESTAURANTS st uuid req)) ->
        In r st \/ (req_method req = POST /\ Starred.id r = uuid)).
Proof.
  split; [intros id b; split; reflexivity|].
  intros [m t b] r. unfold serve. simpl.
  destruct m, t; simpl; try (intros H; left; exact H).
  - unfold list_all. destruct (array_map _ st); simpl; intros H; left; exact H.
  - destruct (get_by_id ALL_RESTAURANTS st id) as [st' resp] eqn:E.
    pose proof (get_by_id_state st id) as Hst. rewrite E in Hst.
    simpl in *. subst st'. intros H. left. exact H.
  - destruct (body_restaurantId b) as [restaurantId|]; simpl;
      [|intros H; left; exact H].
    destruct (create ALL_RESTAURANTS st restaurantId (body_comment b) uuid)
      as [st' resp] eqn:E.
    destruct (create_state st restaurantId (body_comment b) uuid)
      as [H|[_ [_ H]]]; rewrite E in H; simpl in *; subst st'.
    + intros H. left. exact H.
    + intros H. apply in_app_or in H. destruct H as [H|[H|[]]].
      * left. exact H.
      * right. subst r. split; reflexivity.
  - destruct (delete_by_id st id) as [st' resp] eqn:E.
    unfold delete_by_id in E.
    destruct (Nat.eqb _ _); inversion E; subst; simpl; intros H.
    + left. exact H.
    + left. apply filter_In in H. apply H.
Qed.

End Properties.

(** ** The theorems at concrete requests *)

Lemma seed_id_unique : NoDup (map Starred.id STARRED_RESTAURANTS).
Proof. nodup_literals. Qed.

Lemma create_appends_witness :
  create sample_catalogue STARRED_RESTAURANTS "R3" None "u1"
  = (STARRED_RESTAURANTS ++ [Starred.mk "u1" "R3" ""],
     json 201 (RecordOne (Starred.mk "u1" "R3" "")))
  /\ NoDup (map Starred.id (STARRED_RESTAURANTS ++ [Starred.mk "u1" "R3" ""])).
Proof.
  destruct (create_appends sample_catalogue STARRED_RESTAURANTS "R3" None "u1")
    as [H1 H2].
  - in_literals.
  - not_in_literals.
  - split; [exact H1|]. apply H2; [apply seed_id_unique | not_in_literals].
Defined.

Lemma create_refuses_witness :
  create sample_catalogue STARRED_RESTAURANTS "unknown-id" None "u1"
  = (STARRED_RESTAURANTS, sendStatus 404)
  /\ create sample_catalogue STARRED_RESTAURANTS
            "869c848c-7a58-4ed6-ab88-72ee2e8e677c" (Some "Again") "u1"
     = (STARRED_RESTAURANTS, sendStatus 409).
Proof.
  split.
  - apply (create_refuses sample_catalogue STARRED_RESTAURANTS
                          "unknown-id" None "u1").
    not_in_literals.
  - apply (create_refuses sample_catalogue STARRED_RESTAURANTS
                          "869c848c-7a58-4ed6-ab88-72ee2e8e677c"
                          (Some "Again") "u1"); in_literals.
Defined.

(** C4 as written fails: the first record of the initial array stars
    restaurant 869c..., and with a catalogue that does not hold that
    restaurant a Create for it is answered 404, not 409. *)
Lemma create_conflict_counterexample :
  In "869c848c-7a58-4ed6-ab88-72ee2e8e677c"
     (map Starred.restaurantId STARRED_RESTAURANTS)
  /\ create other_catalogue STARRED_RESTAURANTS
            "869c848c-7a58-4ed6-ab88-72ee2e8e677c" None "u1"
     = (STARRED_RESTAURANTS, sendStatus 404)
  /\ create other_catalogue STARRED_RESTAURANTS
            "869c848c-7a58-4ed6-ab88-72ee2e8e677c" None "u1"
     <> (STARRED_RESTAURANTS, sendStatus 409).
Proof.
  split; [in_literals|]. split; [reflexivity|].
  intros H. discriminate H.
Qed.

Lemma get_by_id_spec_witness :
  get_by_id sample_catalogue STARRED_RESTAURANTS "nonexistent-id"
  = (STARRED_RESTAURANTS, sendStatus 404)
  /\ get_by_id other_catalogue STARRED_RESTAURANTS
               "8df59b21-2152-4f9b-9200-95c19aa88226"
     = (STARRED_RESTAURANTS, sendStatus 404)
  /\ get_by_id sample_catalogue STARRED_RESTAURANTS
               "8df59b21-2152-4f9b-9200-95c19aa88226"
     = (STARRED_RESTAURANTS,
        json 200 (ViewOne (View.mk "8df59b21-2152-4f9b-9200-95c19aa88226"
                                   "Their lunch special is the best!"
                                   "Lunch Box"))).
Proof.
  split; [|split].
  - apply (get_by_id_spec sample_catalogue STARRED_RESTAURANTS
                          "nonexistent-id").
    not_in_literals.
  - destruct (get_by_id_spec other_catalogue STARRED_RESTAURANTS
                             "8df59b21-2152-4f9b-9200-95c19aa88226")
      as [_ [_ H]].
    refine (proj1 (H [Starred.mk "a7272cd9-26fb-44b5-8d53-9781f55175a1"
                                 "869c848c-7a58-4ed6-ab88-72ee2e8e677c"
                                 "Best pho in NYC"]
                     (Starred.mk "8df59b21-2152-4f9b-9200-95c19aa88226"
                                 "e8036613-4b72-46f6-ab5e-edd2fc7c4fe4"
                                 "Their lunch special is the best!")
                     [] eq_refl eq_refl _) _); not_in_literals.
  - destruct (get_by_id_spec sample_catalogue STARRED_RESTAURANTS
                             "8df59b21-2152-4f9b-9200-95c19aa88226")
      as [_ [_ H]].
    refine (proj2 (H [Starred.mk "a7272cd9-26fb-44b5-8d53-9781f55175a1"
                                 "869c848c-7a58-4ed6-ab88-72ee2e8e677c"
                                 "Best pho in NYC"]
                     (Starred.mk "8df59b21-2152-4f9b-9200-95c19aa88226"
                                 "e8036613-4b72-46f6-ab5e-edd2fc7c4fe4"
                                 "Their lunch special is the best!")
                     [] eq_refl eq_refl _)
                  [Restaurant.mk "869c848c-7a58-4ed6-ab88-72ee2e8e677c"
                                 "Pho Palace"]
                  (Restaurant.mk "e8036613-4b72-46f6-ab5e-edd2fc7c4fe4"
                                 "Lunch Box")
                  [Restaurant.mk "R3" "Third Place"]
                  eq_refl eq_refl _); not_in_literals.
Defined.

Lemma create_then_get_witness :
  exists created restaurant,
    create sample_catalogue STARRED_RESTAURANTS "R3" (Some "Great!") "u1"
    = (STARRED_RESTAURANTS ++ [created], json 201 (RecordOne created))
    /\ find_restaurant sample_catalogue "R3" = Some restaurant
    /\ In restaurant sample_catalogue
    /\ Restaurant.id restaurant = "R3"
    /\ get_by_id sample_catalogue (STARRED_RESTAURANTS ++ [created])
                 (Starred.id created)
       = (STARRED_RESTAURANTS ++ [created],
          json 200 (ViewOne (View.mk (Starred.id created)
                                     (Starred.comment created)
                                     (Restaurant.name restaurant)))).
Proof.
  apply (create_then_get sample_catalogue STARRED_RESTAURANTS
                         "R3" (Some "Great!") "u1").
  - in_literals.
  - not_in_literals.
  - not_in_literals.
Defined.

Lemma delete_by_id_spec_witness :
  delete_by_id STARRED_RESTAURANTS "nonexistent-id"
  = (STARRED_RESTAURANTS, sendStatus 404)
  /\ (exists before starred after,
       STARRED_RESTAURANTS = before ++ starred :: after
       /\ Starred.id starred = "a7272cd9-26fb-44b5-8d53-9781f55175a1"
       /\ delete_by_id STARRED_RESTAURANTS
                       "a7272cd9-26fb-44b5-8d53-9781f55175a1"
          = (before ++ after, sendStatus 200)
       /\ length (fst (delete_by_id STARRED_RESTAURANTS
                                    "a7272cd9-26fb-44b5-8d53-9781f55175a1"))
          + 1
          = length STARRED_RESTAURANTS)
  /\ status_body (snd (delete_by_id STARRED_RESTAURANTS
                                    "a7272cd9-26fb-44b5-8d53-9781f55175a1"))
     = Some "OK".
Proof.
  split; [|split].
  - apply (delete_by_id_spec STARRED_RESTAURANTS "nonexistent-id").
    not_in_literals.
  - apply (delete_by_id_spec STARRED_RESTAURANTS
                             "a7272cd9-26fb-44b5-8d53-9781f55175a1").
    + nodup_literals.
    + in_literals.
  - apply (delete_by_id_spec STARRED_RESTAURANTS
                             "a7272cd9-26fb-44b5-8d53-9781f55175a1").
    in_literals.
Defined.

(** C6 as written fails: the Delete of the first record of the initial array
    is answered with [sendStatus(200)], and the body of that response is the
    text [OK], not the empty text. *)
Lemma delete_body_counterexample :
  delete_by_id STARRED_RESTAURANTS "a7272cd9-26fb-44b5-8d53-9781f55175a1"
  = ([ Starred.mk "8df59b21-2152-4f9b-9200-95c19aa88226"
                  "e8036613-4b72-46f6-ab5e-edd2fc7c4fe4"
                  "Their lunch special is the best!" ],
     sendStatus 200)
  /\ status_body (snd (delete_by_id STARRED_RESTAURANTS
                                    "a7272cd9-26fb-44b5-8d53-9781f55175a1"))
     = Some "OK"
  /\ status_body (snd (delete_by_id STARRED_RESTAURANTS
                                    "a7272cd9-26fb-44b5-8d53-9781f55175a1"))
     <> Some "".
Proof.
  split; [reflexivity|]. split; [reflexivity|].
  intros H. discriminate H.
Qed.

Lemma delete_removes_every_match_witness :
  delete_by_id shared_id_state "s1"
  = ([Starred.mk "s2" "R2" "second"], sendStatus 200)
  /\ ~ In "s1" (map Starred.id (fst (delete_by_id shared_id_state "s1"))).
Proof.
  destruct (delete_removes_every_match shared_id_state "s1") as [H1 [H2 _]].
  - in_literals.
  - split; [exact H1 | exact H2].
Defined.

Lemma list_all_joins_witness :
  exists views,
    list_all sample_catalogue STARRED_RESTAURANTS
    = (STARRED_RESTAURANTS, json 200 (ViewList views))
    /\ length views = length STARRED_RESTAURANTS
    /\ Forall2 (joined sample_catalogue) STARRED_RESTAURANTS views.
Proof.
  apply (list_all_joins sample_catalogue STARRED_RESTAURANTS).
  constructor; [in_literals | constructor; [in_literals | constructor]].
Defined.

(** C7 as written fails: with a catalogue that does not hold the restaurants
    of the initial array, List sends no list at all. *)
Lemma list_all_counterexample :
  list_all other_catalogue STARRED_RESTAURANTS
  = (STARRED_RESTAURANTS, uncaught undefined_name)
  /\ forall views,
       list_all other_catalogue STARRED_RESTAURANTS
       <> (STARRED_RESTAURANTS, json 200 (ViewList views)).
Proof.
  split; [reflexivity|]. intros views H. discriminate H.
Qed.

Lemma list_all_dangling_witness :
  list_all other_catalogue STARRED_RESTAURANTS
  = (STARRED_RESTAURANTS, uncaught undefined_name).
Proof.
  apply (list_all_dangling other_catalogue STARRED_RESTAURANTS).
  apply Exists_cons_hd. not_in_literals.
Defined.

Lemma restaurantId_unique_along_runs_witness :
  let ops := [ OpCreate "R3" (Some "Great!") "u1";
               OpDelete "a7272cd9-26fb-44b5-8d53-9781f55175a1";
               OpCreate "R3" None "u2";
               OpList ] in
  let st := run sample_catalogue ops STARRED_RESTAURANTS in
  let st' := run other_catalogue ops STARRED_RESTAURANTS in
  NoDup (map Starred.restaurantId st)
  /\ create sample_catalogue st "R3" None "u3" = (st, sendStatus 409)
  /\ create sample_catalogue st "e8036613-4b72-46f6-ab5e-edd2fc7c4fe4"
            (Some "Again") "u3"
     = (st, sendStatus 409)
  /\ create other_catalogue st' "e8036613-4b72-46f6-ab5e-edd2fc7c4fe4"
            None "u3"
     = (st', sendStatus 404).
Proof.
  intros ops st st'.
  destruct (restaurantId_unique_along_runs sample_catalogue ops)
    as [H1 [_ [H3 H4]]].
  destruct (restaurantId_unique_along_runs other_catalogue ops)
    as [_ [_ [H3' _]]].
  split; [exact H1|]. split; [|split].
  - apply (H4 ltac:(constructor;
                      [in_literals | constructor; [in_literals | constructor]])
              "R3" None "u3").
    in_literals.
  - apply (H3 "e8036613-4b72-46f6-ab5e-edd2fc7c4fe4" (Some "Again") "u3");
      in_literals.
  - apply (H3' "e8036613-4b72-46f6-ab5e-edd2fc7c4fe4" None "u3").
    + in_literals.
    + not_in_literals.
Defined.

(** C1 as written fails in its clause on the refusal: after a Delete of the
    first record of the initial array, the second record still stars
    restaurant e803..., and with a catalogue that does not hold that
    restaurant a Create for it is refused with 404, not with 409. *)
Lemma refusal_status_counterexample :
  let st := run other_catalogue
                [ OpDelete "a7272cd9-26fb-44b5-8d53-9781f55175a1" ]
                STARRED_RESTAURANTS in
  In "e8036613-4b72-46f6-ab5e-edd2fc7c4fe4" (map Starred.restaurantId st)
  /\ create other_catalogue st "e8036613-4b72-46f6-ab5e-edd2fc7c4fe4"
            None "u1"
     = (st, sendStatus 404)
  /\ create other_catalogue st "e8036613-4b72-46f6-ab5e-edd2fc7c4fe4"
            None "u1"
     <> (st, sendStatus 409).
Proof.
  split; [in_literals|]. split; [reflexivity|].
  intros H. discriminate H.
Qed.

Lemma update_comment_not_routed_witness :
  serve sample_catalogue STARRED_RESTAURANTS "u1"
        (mkRequest PUT (Item "a7272cd9-26fb-44b5-8d53-9781f55175a1")
                   (mkBody None (Some "Still the best pho")))
  = (STARRED_RESTAURANTS, None).
Proof.
  apply (update_comment_not_routed sample_catalogue STARRED_RESTAURANTS "u1").
Defined.

(** ** How the handlers compose *)

Section Composition.

Variable ALL_RESTAURANTS : list Restaurant.t.

Local Abbreviation in_catalogue restaurantId :=
  (In restaurantId (map Restaurant.id ALL_RESTAURANTS)).

Local Abbreviation other_ids id :=
  (fun r => negb (String.eqb (Starred.id r) id)).

(** The array after a Delete is the filter, whatever the answer. *)
Lemma delete_by_id_state (st : state) (id : string) :
  fst (delete_by_id st id) = filter (other_ids id) st.
Proof.
  destruct (in_dec string_dec id (map Starred.id st)) as [H|H].
  - rewrite (delete_by_id_present st id H). reflexivity.
  - rewrite (delete_by_id_absent st id H). simpl.
    symmetry. apply (drop_key_absent Starred.id). exact H.
Qed.

(** Pushing a record with a new id and filtering that id out again. *)
Lemma filter_pushed (st : state) (r : Starred.t) :
  ~ In (Starred.id r) (map Starred.id st) ->
  filter (other_ids (Starred.id r)) (st ++ [r]) = st.
Proof.
  intros H. rewrite filter_app. simpl.
  rewrite String.eqb_refl. simpl. rewrite app_nil_r.
  apply (drop_key_absent Starred.id). exact H.
Qed.

Lemma list_all_sent (st : state) (views : list View.t) :
  list_all ALL_RESTAURANTS st = (st, json 200 (ViewList views))
  <-> array_map (join ALL_RESTAURANTS) st = Normal views.
Proof.
  unfold list_all.
  destruct (array_map (join ALL_RESTAURANTS) st) as [vs|e]; split; intros H.
  - inversion H. reflexivity.
  - inversion H. reflexivity.
  - discriminate H.
  - discriminate H.
Qed.

Lemma join_view_id (s : Starred.t) (v : View.t) :
  join ALL_RESTAURANTS s = Normal v -> View.id v = Starred.id s.
Proof.
  unfold join.
  destruct (find_restaurant ALL_RESTAURANTS (Starred.restaurantId s));
    simpl; intros H; inversion H; reflexivity.
Qed.

Lemma array_map_push {A B : Type} (f : A -> completion B)
    (l : list A) (x : A) (ys : list B) (y : B) :
  array_map f l = Normal ys -> f x = Normal y ->
  array_map f (l ++ [x]) = Normal (ys ++ [y]).
Proof.
  revert ys. induction l as [|a l IH]; simpl; intros ys Hl Hx.
  - inversion Hl. rewrite Hx. reflexivity.
  - destruct (f a) as [b|e]; simpl in *; [|discriminate Hl].
    destruct (array_map f l) as [bs|e]; simpl in *; [|discriminate Hl].
    inversion Hl. rewrite (IH bs eq_refl Hx). reflexivity.
Qed.

(** X1: a Create that succeeds with an id new to the array, followed by a
    Delete of that id, is answered 200 and gives back the array as it was
    before the Create. *)
Theorem create_then_delete_restores (st : state) (restaurantId : string)
    (comment : option string) (uuid : string) :
  in_catalogue restaurantId ->
  ~ In restaurantId (map Starred.restaurantId st) ->
  ~ In uuid (map Starred.id st) ->
  delete_by_id (fst (create ALL_RESTAURANTS st restaurantId comment uuid)) uuid
  = (st, sendStatus 200).
Proof.
  intros Hcat Hnew Hfresh.
  rewrite (create_created ALL_RESTAURANTS st restaurantId comment uuid
                          Hcat Hnew).
  simpl. rewrite delete_by_id_present.
  - pose proof (filter_pushed
                  st (Starred.mk uuid restaurantId (or_empty comment)) Hfresh)
      as E.
    simpl in E. rewrite E. reflexivity.
  - rewrite map_app. apply in_or_app. right. left. reflexivity.
Qed.

(** X2: after a Delete that found the id, a Get-by-id of that id is answered
    404 and a second Delete of it is answered 404; neither changes the
    array. *)
Theorem delete_then_gone (st : state) (id : string) :
  In id (map Starred.id st) ->
  let st' := fst (delete_by_id st id) in
  snd (delete_by_id st id) = sendStatus 200
  /\ get_by_id ALL_RESTAURANTS st' id = (st', sendStatus 404)
  /\ delete_by_id st' id = (st', sendStatus 404).
Proof.
  intros Hin st'.
  assert (Hgone : ~ In id (map Starred.id st')).
  { unfold st'. rewrite delete_by_id_state. apply (drop_key_gone Starred.id). }
  split; [rewrite (delete_by_id_present st id Hin); reflexivity|]. split.
  - unfold get_by_id, find_starred.
    apply (find_key_none Starred.id) in Hgone. rewrite Hgone. reflexivity.
  - apply delete_by_id_absent. exact Hgone.
Qed.

(** Two elements with the same value of a duplicate-free field are one. *)
Lemma distinct_field_injective {A B : Type} (field : A -> B) (l : list A)
    (x y : A) :
  NoDup (map field l) -> In x l -> In y l -> field x = field y -> x = y.
Proof.
  induction l as [|a l IH]; simpl; intros Hnd Hx Hy E.
  - contradiction.
  - inversion Hnd as [|? ? Ha Hl]; subst.
    destruct Hx as [Hx|Hx], Hy as [Hy|Hy].
    + congruence.
    + exfalso. apply Ha. subst a. rewrite E. apply in_map. exact Hy.
    + exfalso. apply Ha. subst a. rewrite <- E. apply in_map. exact Hx.
    + apply IH; assumption.
Qed.

(** X3: in an array without two records for the same restaurant, deleting a
    record frees its restaurant: a Create for that restaurant, the catalogue
    holding it, is answered 201 and pushes the new record. *)
Theorem delete_then_create_again (st : state) (s : Starred.t)
    (comment : option string) (uuid : string) :
  NoDup (map Starred.restaurantId st) ->
  In s st ->
  in_catalogue (Starred.restaurantId s) ->
  let st' := fst (delete_by_id st (Starred.id s)) in
  let newStarred :=
    Starred.mk uuid (Starred.restaurantId s) (or_empty comment) in
  ~ In s st'
  /\ create ALL_RESTAURANTS st' (Starred.restaurantId s) comment uuid
     = (st' ++ [newStarred], json 201 (RecordOne newStarred)).
Proof.
  intros Hnd Hs Hcat st' newStarred.
  assert (Hst' : forall r, In r st' -> In r st /\ Starred.id r <> Starred.id s).
  { intros r Hr. unfold st' in Hr. rewrite delete_by_id_state in Hr.
    apply (drop_key_in Starred.id). exact Hr. }
  split.
  - intros H. apply Hst' in H. destruct H as [_ H]. apply H. reflexivity.
  - apply create_created; [exact Hcat|].
    intros H. apply in_map_iff in H. destruct H as [r [Hr1 Hr2]].
    destruct (Hst' r Hr2) as [Hin Hid]. apply Hid.
    rewrite (distinct_field_injective Starred.restaurantId st r s
               Hnd Hin Hs Hr1).
    reflexivity.
Qed.

(** X4: from the initial array, as long as every [uuidv4()] returns an id
    that no record of the array has at that moment, no two records of the
    array have the same id, after any sequence of operations. *)
Theorem id_unique_from_seed (ops : list op) :
  uuids_fresh ALL_RESTAURANTS ops STARRED_RESTAURANTS ->
  NoDup (map Starred.id (run ALL_RESTAURANTS ops STARRED_RESTAURANTS)).
Proof.
  intros H. apply id_unique_along_runs; [apply seed_id_unique | exact H].
Qed.

(** X5: the catalogue holding the restaurants of the initial array, after
    any sequence of operations every record of the array has its restaurant
    in the catalogue, List is answered 200 with as many views as the array
    has records, and Get-by-id of every id of the array is answered 200 with
    a view of that id. *)
Theorem reads_succeed_along_runs (ops : list op) :
  Forall (fun s => in_catalogue (Starred.restaurantId s))
         STARRED_RESTAURANTS ->
  let st := run ALL_RESTAURANTS ops STARRED_RESTAURANTS in
  Forall (fun s => in_catalogue (Starred.restaurantId s)) st
  /\ (exists views,
        list_all ALL_RESTAURANTS st = (st, json 200 (ViewList views))
        /\ length views = length st)
  /\ (forall id, In id (map Starred.id st) ->
        exists v, get_by_id ALL_RESTAURANTS st id = (st, json 200 (ViewOne v))
                  /\ View.id v = id).
Proof.
  intros Hseed st.
  pose proof (run_keeps_catalogued ALL_RESTAURANTS ops _ Hseed) as Hall.
  fold st in Hall. split; [exact Hall|]. split.
  - destruct (array_map_join_all ALL_RESTAURANTS st Hall) as [views [Hv HF]].
    exists views. split; [apply list_all_sent; exact Hv|].
    symmetry. apply (Forall2_length HF).
  - intros id Hid.
    destruct (find_key_in Starred.id id st Hid) as [s Hs].
    destruct (find_key_some Starred.id id st s Hs) as [Hin Hsid].
    rewrite Forall_forall in Hall.
    destruct (find_restaurant_some ALL_RESTAURANTS _ (Hall s Hin))
      as [r [Hr _]].
    exists (View.mk (Starred.id s) (Starred.comment s) (Restaurant.name r)).
    split; [|exact Hsid].
    unfold get_by_id, find_starred. rewrite Hs, Hr. reflexivity.
Qed.

(** The answer of Get-by-id, without the array. *)
Lemma get_by_id_answer (st : state) (id : string) :
  snd (get_by_id ALL_RESTAURANTS st id)
  = match find_starred st id with
    | None => sendStatus 404
    | Some s =>
        match find_restaurant ALL_RESTAURANTS (Starred.restaurantId s) with
        | None => sendStatus 404
        | Some r =>
            json 200 (ViewOne (View.mk (Starred.id s) (Starred.comment s)
                                       (Restaurant.name r)))
        end
    end.
Proof.
  unfold get_by_id. destruct (find_starred st id) as [s|]; [|reflexivity].
  destruct (find_restaurant _ _); reflexivity.
Qed.

(** X6: when List is answered 200 with [views], a Create that succeeds makes
    the next List answer 200 with [views] followed by the view of the new
    record: its id, its comment and the name of the catalogue entry of the
    requested restaurant. *)
Theorem list_after_create (st : state) (views : list View.t)
    (restaurantId : string) (comment : option string) (uuid : string) :
  list_all ALL_RESTAURANTS st = (st, json 200 (ViewList views)) ->
  in_catalogue restaurantId ->
  ~ In restaurantId (map Starred.restaurantId st) ->
  exists restaurant,
    find_restaurant ALL_RESTAURANTS restaurantId = Some restaurant
    /\ list_all ALL_RESTAURANTS
                (fst (create ALL_RESTAURANTS st restaurantId comment uuid))
       = (fst (create ALL_RESTAURANTS st restaurantId comment uuid),
          json 200 (ViewList
            (views ++ [View.mk uuid (or_empty comment)
                               (Restaurant.name restaurant)]))).
Proof.
  intros Hlist Hcat Hnew.
  destruct (find_restaurant_some ALL_RESTAURANTS _ Hcat) as [r [Hr _]].
  exists r. split; [exact Hr|].
  rewrite (create_created ALL_RESTAURANTS st restaurantId comment uuid
                          Hcat Hnew).
  simpl. apply list_all_sent. apply array_map_push.
  - apply list_all_sent. exact Hlist.
  - unfold join. simpl. rewrite Hr. reflexivity.
Qed.

Lemma array_map_join_filter (id : string) (st : state) (views : list View.t) :
  array_map (join ALL_RESTAURANTS) st = Normal views ->
  array_map (join ALL_RESTAURANTS) (filter (other_ids id) st)
  = Normal (filter (fun v => negb (String.eqb (View.id v) id)) views).
Proof.
  revert views. induction st as [|s st IH]; simpl; intros views H.
  - inversion H. reflexivity.
  - destruct (join ALL_RESTAURANTS s) as [v|e] eqn:Ev; simpl in H;
      [|discriminate H].
    destruct (array_map (join ALL_RESTAURANTS) st) as [vs|e] eqn:Evs;
      simpl in H; [|discriminate H].
    inversion H. subst views. simpl.
    rewrite (join_view_id s v Ev).
    destruct (String.eqb (Starred.id s) id); simpl.
    + apply IH. reflexivity.
    + rewrite Ev. simpl. rewrite (IH vs eq_refl). reflexivity.
Qed.

(** X7: when List is answered 200 with [views], the List after a
    Delete-by-id is answered 200 with the views of [views] whose id is not
    the deleted one, in the same order. *)
Theorem list_after_delete (st : state) (views : list View.t) (id : string) :
  list_all ALL_RESTAURANTS st = (st, json 200 (ViewList views)) ->
  list_all ALL_RESTAURANTS (fst (delete_by_id st id))
  = (fst (delete_by_id st id),
     json 200 (ViewList
       (filter (fun v => negb (String.eqb (View.id v) id)) views))).
Proof.
  intros Hlist. apply list_all_sent in Hlist.
  rewrite delete_by_id_state. apply list_all_sent.
  apply array_map_join_filter. exact Hlist.
Qed.

(** X8: when List is answered 200 with [views], Get-by-id of any id sends
    the first view of [views] with that id, and answers 404 when [views] has
    none. *)
Theorem get_agrees_with_list (st : state) (views : list View.t) (id : string) :
  list_all ALL_RESTAURANTS st = (st, json 200 (ViewList views)) ->
  get_by_id ALL_RESTAURANTS st id
  = (st, match find (fun v => String.eqb (View.id v) id) views with
         | Some v => json 200 (ViewOne v)
         | None => sendStatus 404
         end).
Proof.
  intros Hlist. apply list_all_sent in Hlist.
  rewrite (surjective_pairing (get_by_id ALL_RESTAURANTS st id)).
  rewrite get_by_id_state, get_by_id_answer. f_equal.
  unfold find_starred.
  revert views Hlist. induction st as [|s st IH]; simpl; intros views H.
  - inversion H. reflexivity.
  - destruct (join ALL_RESTAURANTS s) as [v|e] eqn:Ev; simpl in H;
      [|discriminate H].
    destruct (array_map (join ALL_RESTAURANTS) st) as [vs|e] eqn:Evs;
      simpl in H; [|discriminate H].
    inversion H. subst views. simpl.
    rewrite (join_view_id s v Ev).
    destruct (String.eqb (Starred.id s) id).
    + unfold join in Ev.
      destruct (find_restaurant ALL_RESTAURANTS (Starred.restaurantId s));
        simpl in Ev; inversion Ev. reflexivity.
    + apply IH. reflexivity.
Qed.

(** X9: the router changes the array only with an answer of success.  A
    request that is answered 404 or 409, that matches no route, or whose
    handler throws leaves the array as it was, and so does every GET. *)
Theorem serve_refusal_keeps_array (st : state) (uuid : string) (req : request) :
  (req_method req = GET -> fst (serve ALL_RESTAURANTS st uuid req) = st)
  /\ (snd (serve ALL_RESTAURANTS st uuid req) = None ->
      fst (serve ALL_RESTAURANTS st uuid req) = st)
  /\ (forall code,
        code <> 200 ->
        snd (serve ALL_RESTAURANTS st uuid req) = Some (sendStatus code) ->
        fst (serve ALL_RESTAURANTS st uuid req) = st)
  /\ (forall e,
        snd (serve ALL_RESTAURANTS st uuid req) = Some (uncaught e) ->
        fst (serve ALL_RESTAURANTS st uuid req) = st).
Proof.
  destruct req as [m t b]. unfold serve. simpl.
  assert (Hlist : fst (list_all ALL_RESTAURANTS st) = st).
  { unfold list_all. destruct (array_map _ st); reflexivity. }
  assert (Hcreate : forall restaurantId comment,
             (forall r, snd (create ALL_RESTAURANTS st restaurantId comment uuid)
                        <> json 201 (RecordOne r)) ->
             fst (create ALL_RESTAURANTS st restaurantId comment uuid) = st).
  { intros restaurantId comment H. unfold create in *.
    destruct (find_restaurant ALL_RESTAURANTS restaurantId); [|reflexivity].
    destruct (existsb _ st); [reflexivity|].
    exfalso. simpl in H. apply (H _ eq_refl). }
  assert (Hdelete : forall id,
             snd (delete_by_id st id) <> sendStatus 200 ->
             fst (delete_by_id st id) = st).
  { intros id H. unfold delete_by_id in *.
    destruct (Nat.eqb _ _); [reflexivity|]. exfalso. apply H. reflexivity. }
  destruct m, t; simpl;
    repeat match goal with
           | |- context [list_all ALL_RESTAURANTS st] =>
               destruct (list_all ALL_RESTAURANTS st) as [st' resp] eqn:E;
               simpl in *; subst st'
           | |- context [get_by_id ALL_RESTAURANTS st ?i] =>
               pose proof (get_by_id_state ALL_RESTAURANTS st i) as Hget;
               destruct (get_by_id ALL_RESTAURANTS st i) as [st' resp] eqn:E;
               simpl in *; subst st'
           | |- context [body_restaurantId b] =>
               destruct (body_restaurantId b) as [restaurantId|]; simpl
           | |- context [create ALL_RESTAURANTS st ?r ?c uuid] =>
               pose proof (Hcreate r c) as Hc;
               destruct (create ALL_RESTAURANTS st r c uuid)
                 as [st' resp] eqn:E; simpl in *
           | |- context [delete_by_id st ?i] =>
               pose proof (Hdelete i) as Hd;
               destruct (delete_by_id st i) as [st' resp] eqn:E; simpl in *
           end;
    repeat split; intros; try reflexivity; try discriminate;
    try (apply Hc; intros r Hr; congruence);
    try (apply Hd; intros Hr; congruence).
Qed.

(** X10: the answer of Create tells the case.  It is 404 exactly when the
    catalogue has no entry for the restaurant, 409 exactly when the
    catalogue has one and a record of the array stars the restaurant, 201
    with a record exactly when the catalogue has one and no record stars
    it; there is no fourth answer. *)
Theorem create_answer_table (st : state) (restaurantId : string)
    (comment : option string) (uuid : string) :
  let answer := snd (create ALL_RESTAURANTS st restaurantId comment uuid) in
  (answer = sendStatus 404 <-> ~ in_catalogue restaurantId)
  /\ (answer = sendStatus 409
      <-> in_catalogue restaurantId
          /\ In restaurantId (map Starred.restaurantId st))
  /\ ((exists r, answer = json 201 (RecordOne r))
      <-> in_catalogue restaurantId
          /\ ~ In restaurantId (map Starred.restaurantId st))
  /\ (answer = sendStatus 404 \/ answer = sendStatus 409
      \/ exists r, answer = json 201 (RecordOne r)).
Proof.
  intros answer.
  destruct (in_dec string_dec restaurantId
                   (map Restaurant.id ALL_RESTAURANTS)) as [Hcat|Hcat];
    [destruct (in_dec string_dec restaurantId
                      (map Starred.restaurantId st)) as [Hin|Hin]|].
  - assert (E : answer = sendStatus 409).
    { unfold answer. rewrite create_conflict; [reflexivity | | ]; assumption. }
    rewrite E. split; [|split; [|split]].
    + split; [discriminate | contradiction].
    + tauto.
    + split; [intros [r Hr]; discriminate Hr | tauto].
    + right. left. reflexivity.
  - assert (E : answer = json 201 (RecordOne
                  (Starred.mk uuid restaurantId (or_empty comment)))).
    { unfold answer. rewrite create_created; [reflexivity | | ]; assumption. }
    rewrite E. split; [|split; [|split]].
    + split; [discriminate | contradiction].
    + split; [discriminate | tauto].
    + split; [tauto | intros _; eexists; reflexivity].
    + right. right. eexists. reflexivity.
  - assert (E : answer = sendStatus 404).
    { unfold answer. rewrite create_not_found; [reflexivity | assumption]. }
    rewrite E. split; [|split; [|split]].
    + tauto.
    + split; [discriminate | tauto].
    + split; [intros [r Hr]; discriminate Hr | tauto].
    + left. reflexivity.
Qed.

Lemma find_other_ids (id id' : string) (st : state) :
  id' <> id ->
  find_starred (filter (other_ids id) st) id' = find_starred st id'.
Proof.
  intros Hne. unfold find_starred.
  induction st as [|s st IH]; simpl; [reflexivity|].
  destruct (String.eqb_spec (Starred.id s) id) as [E|E]; simpl.
  - destruct (String.eqb_spec (Starred.id s) id') as [E'|E'].
    + exfalso. apply Hne. rewrite <- E', E. reflexivity.
    + exact IH.
  - destruct (String.eqb (Starred.id s) id'); [reflexivity | exact IH].
Qed.

Lemma find_pushed_other (id' : string) (st : state) (r : Starred.t) :
  id' <> Starred.id r ->
  find_starred (st ++ [r]) id' = find_starred st id'.
Proof.
  intros Hne. unfold find_starred.
  induction st as [|s st IH]; simpl.
  - destruct (String.eqb_spec (Starred.id r) id') as [E|E]; [|reflexivity].
    exfalso. apply Hne. symmetry. exact E.
  - destruct (String.eqb (Starred.id s) id'); [reflexivity | exact IH].
Qed.

(** X11: a Delete-by-id of one id and a Create with one id leave the answer
    of Get-by-id for every other id as it was. *)
Theorem get_by_id_of_other_ids (st : state) (id' : string) :
  (forall id,
     id' <> id ->
     snd (get_by_id ALL_RESTAURANTS (fst (delete_by_id st id)) id')
     = snd (get_by_id ALL_RESTAURANTS st id'))
  /\ (forall restaurantId comment uuid,
        id' <> uuid ->
        snd (get_by_id ALL_RESTAURANTS
               (fst (create ALL_RESTAURANTS st restaurantId comment uuid)) id')
        = snd (get_by_id ALL_RESTAURANTS st id')).
Proof.
  split.
  - intros id Hne. rewrite !get_by_id_answer, delete_by_id_state.
    rewrite (find_other_ids id id' st Hne). reflexivity.
  - intros restaurantId comment uuid Hne. rewrite !get_by_id_answer.
    destruct (create_state ALL_RESTAURANTS st restaurantId comment uuid)
      as [H|[_ [_ H]]]; rewrite H; [reflexivity|].
    rewrite find_pushed_other; [reflexivity | exact Hne].
Qed.

(** X12: the comparison of lengths in Delete-by-id is a test of membership:
    the answer is 200 exactly when some record of the array has the id and
    404 exactly when none has, and after a 200 the array is shorter. *)
Theorem delete_answer_table (st : state) (id : string) :
  (snd (delete_by_id st id) = sendStatus 200 <-> In id (map Starred.id st))
  /\ (snd (delete_by_id st id) = sendStatus 404
      <-> ~ In id (map Starred.id st))
  /\ (snd (delete_by_id st id) = sendStatus 200 ->
      length (fst (delete_by_id st id)) < length st).
Proof.
  destruct (in_dec string_dec id (map Starred.id st)) as [H|H].
  - rewrite (delete_by_id_present st id H). simpl.
    repeat split; try tauto; try discriminate.
    intros _. apply (drop_key_present Starred.id). exact H.
  - rewrite (delete_by_id_absent st id H). simpl.
    repeat split; try tauto; discriminate.
Qed.

End Composition.

(** ** The composition theorems at concrete requests *)

Lemma create_then_delete_restores_witness :
  delete_by_id
    (fst (create sample_catalogue STARRED_RESTAURANTS "R3" (Some "Great!")
                 "u1"))
    "u1"
  = (STARRED_RESTAURANTS, sendStatus 200).
Proof.
  apply (create_then_delete_restores sample_catalogue STARRED_RESTAURANTS
                                     "R3" (Some "Great!") "u1").
  - in_literals.
  - not_in_literals.
  - not_in_literals.
Defined.

Lemma delete_then_gone_witness :
  let st' := fst (delete_by_id shared_id_state "s1") in
  snd (delete_by_id shared_id_state "s1") = sendStatus 200
  /\ get_by_id sample_catalogue st' "s1" = (st', sendStatus 404)
  /\ delete_by_id st' "s1" = (st', sendStatus 404).
Proof.
  apply (delete_then_gone sample_catalogue shared_id_state "s1").
  in_literals.
Defined.

Lemma delete_then_create_again_witness :
  let s := Starred.mk "a7272cd9-26fb-44b5-8d53-9781f55175a1"
                      "869c848c-7a58-4ed6-ab88-72ee2e8e677c"
                      "Best pho in NYC" in
  let st' := fst (delete_by_id STARRED_RESTAURANTS (Starred.id s)) in
  let newStarred := Starred.mk "u1" (Starred.restaurantId s) (or_empty None) in
  ~ In s st'
  /\ create sample_catalogue st' (Starred.restaurantId s) None "u1"
     = (st' ++ [newStarred], json 201 (RecordOne newStarred)).
Proof.
  intros s.
  apply (delete_then_create_again sample_catalogue STARRED_RESTAURANTS s
                                  None "u1").
  - nodup_literals.
  - left. reflexivity.
  - in_literals.
Defined.

Lemma id_unique_from_seed_witness :
  NoDup (map Starred.id
           (run sample_catalogue
                [ OpCreate "R3" (Some "Great!") "u1";
                  OpDelete "a7272cd9-26fb-44b5-8d53-9781f55175a1";
                  OpCreate "869c848c-7a58-4ed6-ab88-72ee2e8e677c" None "u2" ]
                STARRED_RESTAURANTS)).
Proof.
  apply (id_unique_from_seed sample_catalogue).
  simpl. repeat split; not_in_literals.
Defined.

Lemma reads_succeed_along_runs_witness :
  let st := run sample_catalogue
                [ OpCreate "R3" (Some "Great!") "u1";
                  OpDelete "a7272cd9-26fb-44b5-8d53-9781f55175a1" ]
                STARRED_RESTAURANTS in
  exists views,
    list_all sample_catalogue st = (st, json 200 (ViewList views))
    /\ length views = length st.
Proof.
  intros st.
  apply (reads_succeed_along_runs
           sample_catalogue
           [ OpCreate "R3" (Some "Great!") "u1";
             OpDelete "a7272cd9-26fb-44b5-8d53-9781f55175a1" ]).
  constructor; [in_literals | constructor; [in_literals | constructor]].
Defined.

Lemma list_after_create_witness :
  exists restaurant,
    find_restaurant sample_catalogue "R3" = Some restaurant
    /\ list_all sample_catalogue
                (fst (create sample_catalogue STARRED_RESTAURANTS
                             "R3" (Some "Great!") "u1"))
       = (fst (create sample_catalogue STARRED_RESTAURANTS
                      "R3" (Some "Great!") "u1"),
          json 200 (ViewList
            ([ View.mk "a7272cd9-26fb-44b5-8d53-9781f55175a1"
                       "Best pho in NYC" "Pho Palace";
               View.mk "8df59b21-2152-4f9b-9200-95c19aa88226"
                       "Their lunch special is the best!" "Lunch Box" ]
             ++ [View.mk "u1" (or_empty (Some "Great!"))
                         (Restaurant.name restaurant)]))).
Proof.
  apply (list_after_create
           sample_catalogue STARRED_RESTAURANTS
           [ View.mk "a7272cd9-26fb-44b5-8d53-9781f55175a1" "Best pho in NYC"
                     "Pho Palace";
             View.mk "8df59b21-2152-4f9b-9200-95c19aa88226"
                     "Their lunch special is the best!" "Lunch Box" ]
           "R3" (Some "Great!") "u1").
  - reflexivity.
  - in_literals.
  - not_in_literals.
Defined.

Lemma list_after_delete_witness :
  list_all sample_catalogue
           (fst (delete_by_id STARRED_RESTAURANTS
                              "a7272cd9-26fb-44b5-8d53-9781f55175a1"))
  = (fst (delete_by_id STARRED_RESTAURANTS
                       "a7272cd9-26fb-44b5-8d53-9781f55175a1"),
     json 200 (ViewList
       [ View.mk "8df59b21-2152-4f9b-9200-95c19aa88226"
                 "Their lunch special is the best!" "Lunch Box" ])).
Proof.
  apply (list_after_delete
           sample_catalogue STARRED_RESTAURANTS
           [ View.mk "a7272cd9-26fb-44b5-8d53-9781f55175a1" "Best pho in NYC"
                     "Pho Palace";
             View.mk "8df59b21-2152-4f9b-9200-95c19aa88226"
                     "Their lunch special is the best!" "Lunch Box" ]
           "a7272cd9-26fb-44b5-8d53-9781f55175a1").
  reflexivity.
Defined.

Lemma get_agrees_with_list_witness :
  get_by_id sample_catalogue STARRED_RESTAURANTS
            "8df59b21-2152-4f9b-9200-95c19aa88226"
  = (STARRED_RESTAURANTS,
     json 200 (ViewOne (View.mk "8df59b21-2152-4f9b-9200-95c19aa88226"
                                "Their lunch special is the best!"
                                "Lunch Box"))).
Proof.
  apply (get_agrees_with_list
           sample_catalogue STARRED_RESTAURANTS
           [ View.mk "a7272cd9-26fb-44b5-8d53-9781f55175a1" "Best pho in NYC"
                     "Pho Palace";
             View.mk "8df59b21-2152-4f9b-9200-95c19aa88226"
                     "Their lunch special is the best!" "Lunch Box" ]
           "8df59b21-2152-4f9b-9200-95c19aa88226").
  reflexivity.
Defined.

Lemma serve_refusal_keeps_array_witness :
  fst (serve sample_catalogue STARRED_RESTAURANTS "u1"
             (mkRequest POST Root
                        (mkBody (Some "869c848c-7a58-4ed6-ab88-72ee2e8e677c")
                                None)))
  = STARRED_RESTAURANTS.
Proof.
  destruct (serve_refusal_keeps_array
              sample_catalogue STARRED_RESTAURANTS "u1"
              (mkRequest POST Root
                         (mkBody (Some "869c848c-7a58-4ed6-ab88-72ee2e8e677c")
                                 None)))
    as [_ [_ [H _]]].
  apply (H 409); [discriminate | reflexivity].
Defined.

Lemma create_answer_table_witness :
  snd (create sample_catalogue STARRED_RESTAURANTS
              "869c848c-7a58-4ed6-ab88-72ee2e8e677c" None "u1")
  = sendStatus 409.
Proof.
  apply (create_answer_table sample_catalogue STARRED_RESTAURANTS
                             "869c848c-7a58-4ed6-ab88-72ee2e8e677c" None "u1").
  split; in_literals.
Defined.

Lemma get_by_id_of_other_ids_witness :
  snd (get_by_id sample_catalogue
         (fst (delete_by_id STARRED_RESTAURANTS
                            "a7272cd9-26fb-44b5-8d53-9781f55175a1"))
         "8df59b21-2152-4f9b-9200-95c19aa88226")
  = snd (get_by_id sample_catalogue STARRED_RESTAURANTS
                   "8df59b21-2152-4f9b-9200-95c19aa88226").
Proof.
  apply (get_by_id_of_other_ids sample_catalogue STARRED_RESTAURANTS
                                "8df59b21-2152-4f9b-9200-95c19aa88226").
  discriminate.
Defined.

Lemma delete_answer_table_witness :
  length (fst (delete_by_id shared_id_state "s1")) < length shared_id_state.
Proof.
  apply (delete_answer_table shared_id_state "s1"). reflexivity.
Defined.
